(** * Flag identifier: the analysis formatter and the upload handlers

    A shallow embedding of [src/pages/Home.tsx]:

    - [formatAnalysis], the line classifier that turns the free text returned
      by the analysis service into rendered blocks;
    - [handleImageUpload], the [FileReader] callbacks and [handleAnalyze],
      the handlers that move the page state.

    JavaScript strings are sequences of UTF-16 code units, so a string is a
    list of code units here.  The array and string methods the component
    calls are written out below with the behaviour ECMAScript gives them. *)

From Stdlib Require Import List Arith NArith Bool Lia String Ascii Sorted.
Import ListNotations.

(* ================================================================== *)
(** ** JavaScript strings *)

Module Js.

Definition char := N.
Definition jsstring := list char.

(** An ASCII literal as a JavaScript string. *)
Definition lit (s : string) : jsstring :=
  map N_of_ascii (list_ascii_of_string s).

Definition LF : char := 10%N.          (* '\n' *)
Definition HASH : char := 35%N.        (* '#' *)
Definition STAR : char := 42%N.        (* '*' *)
Definition DASH : char := 45%N.        (* '-' *)
Definition DOT : char := 46%N.         (* '.' *)
Definition COLON : char := 58%N.       (* ':' *)
Definition UNDERSCORE : char := 95%N.  (* '_' *)
Definition BACKTICK : char := 96%N.    (* '`' *)

(** [\d] : the ASCII digits. *)
Definition isDigit (c : char) : bool := (48 <=? c)%N && (c <=? 57)%N.

(** [\s], and the characters [trim] removes: ECMAScript WhiteSpace and
    LineTerminator code points. *)
Definition isSpace (c : char) : bool :=
  ((9 <=? c)%N && (c <=? 13)%N)            (* TAB LF VT FF CR *)
  || (c =? 32)%N                           (* SPACE *)
  || (c =? 160)%N                          (* NO-BREAK SPACE *)
  || (c =? 5760)%N                         (* U+1680 *)
  || ((8192 <=? c)%N && (c <=? 8202)%N)    (* U+2000 .. U+200A *)
  || (c =? 8232)%N || (c =? 8233)%N        (* U+2028 U+2029 *)
  || (c =? 8239)%N                         (* U+202F *)
  || (c =? 8287)%N                         (* U+205F *)
  || (c =? 12288)%N                        (* U+3000 *)
  || (c =? 65279)%N.                       (* U+FEFF *)

(** The character class [[*_#`]]. *)
Definition isDecoration (c : char) : bool :=
  (c =? STAR)%N || (c =? UNDERSCORE)%N || (c =? HASH)%N || (c =? BACKTICK)%N.

(** *** Regular expressions

    The component only uses patterns of the shape [^a1 a2 ... an] where each
    [ai] is a character class with a quantifier, and one global
    single-class pattern.  Quantifiers are greedy and backtrack. *)

Inductive quant := One | Plus | Star.

Definition atom := ((char -> bool) * quant)%type.

(** [exec r s]: match [r] anchored at the start of [s]; the result is what
    is left of [s] after the match. *)
Fixpoint exec (r : list atom) : jsstring -> option jsstring :=
  match r with
  | [] => fun s => Some s
  | (cl, qu) :: r' =>
      let many :=
        fix many (s : jsstring) : option jsstring :=
          match s with
          | c :: s' =>
              if cl c then
                match many s' with
                | Some rest => Some rest
                | None => exec r' s
                end
              else exec r' s
          | [] => exec r' s
          end in
      match qu with
      | One => fun s =>
          match s with
          | c :: s' => if cl c then exec r' s' else None
          | [] => None
          end
      | Plus => fun s =>
          match s with
          | c :: s' => if cl c then many s' else None
          | [] => None
          end
      | Star => many
      end
  end.

(** [re.test(s)] for an anchored pattern. *)
Definition test (r : list atom) (s : jsstring) : bool :=
  match exec r s with Some _ => true | None => false end.

(** [s.replace(re, '')] for an anchored pattern without the [g] flag. *)
Definition replaceAnchored (r : list atom) (s : jsstring) : jsstring :=
  match exec r s with Some rest => rest | None => s end.

(** [s.replace(/[...]/g, '')]: every character of the class is deleted. *)
Fixpoint replaceAllClass (cl : char -> bool) (s : jsstring) : jsstring :=
  match s with
  | [] => []
  | c :: s' => if cl c then replaceAllClass cl s' else c :: replaceAllClass cl s'
  end.

(** *** String methods *)

Fixpoint trimStart (s : jsstring) : jsstring :=
  match s with
  | c :: s' => if isSpace c then trimStart s' else s
  | [] => []
  end.

Definition trimEnd (s : jsstring) : jsstring := rev (trimStart (rev s)).

Definition trim (s : jsstring) : jsstring := trimEnd (trimStart s).

Fixpoint startsWith (p s : jsstring) : bool :=
  match p, s with
  | [], _ => true
  | c :: p', c' :: s' => (c' =? c)%N && startsWith p' s'
  | _ :: _, [] => false
  end.

(** [s.includes(c)] for a one-character [c]. *)
Definition includes (c : char) (s : jsstring) : bool :=
  existsb (fun c' => (c' =? c)%N) s.

(** [s.substring(1)]. *)
Definition substring1 (s : jsstring) : jsstring :=
  match s with
  | _ :: s' => s'
  | [] => []
  end.

(** [s.split(sep)] for a one-character separator: [cur] is the piece being
    read, in reverse. *)
Fixpoint splitFrom (sep : char) (cur : jsstring) (s : jsstring) : list jsstring :=
  match s with
  | [] => [rev cur]
  | c :: s' =>
      if (c =? sep)%N then rev cur :: splitFrom sep [] s'
      else splitFrom sep (c :: cur) s'
  end.

Definition split (sep : char) (s : jsstring) : list jsstring :=
  splitFrom sep [] s.

(** [parts.join(sep)]. *)
Fixpoint join (sep : char) (parts : list jsstring) : jsstring :=
  match parts with
  | [] => []
  | [p] => p
  | p :: ps => p ++ sep :: join sep ps
  end.

End Js.

Import Js.

(* ================================================================== *)
(** ** Exceptions *)

Inductive exn := TypeError.

Inductive result (A : Type) :=
| Ok (a : A)
| Throw (e : exn).

Arguments Ok {A} a.
Arguments Throw {A} e.

Definition bind {A B} (m : result A) (k : A -> result B) : result B :=
  match m with
  | Ok a => k a
  | Throw e => Throw e
  end.

Notation "x <- m ;; k" := (bind m (fun x => k))
  (at level 61, m at next level, right associativity).

(* ================================================================== *)
(** ** The formatter *)

Module Formatter.

(** What [formatAnalysis] renders for a line: the four JSX blocks, with the
    strings they display.  The colon printed after the label of a labeled
    field and the bullet of a list item are markup. *)
Inductive Segment :=
| SectionHeader (title : jsstring)
| LabeledField (label value : jsstring)
| BulletItem (text : jsstring)
| Paragraph (text : jsstring).

(** A rendered element: the block and its React [key], the index of the
    line in the split text. *)
Record Element := mkElement { key : nat; segment : Segment }.

(** [/^\d+\./] *)
Definition headerTest : list atom := [(isDigit, Plus); (N.eqb DOT, One)].

(** [/^\d+\.\s*/] *)
Definition headerPrefix : list atom :=
  [(isDigit, Plus); (N.eqb DOT, One); (isSpace, Star)].

(** [line.replace(/[*_#`]/g, '').trim()] *)
Definition cleanLine (line : jsstring) : jsstring :=
  trim (replaceAllClass isDecoration line).

(** The classification of a clean, non-empty line.  The array pattern
    [[label, ...valueParts]] leaves [label] undefined on an empty array, and
    [label.trim()] would then raise. *)
Definition classify (clean : jsstring) : result Segment :=
  if test headerTest clean then
    Ok (SectionHeader (replaceAnchored headerPrefix clean))
  else if startsWith [DASH] clean && includes COLON clean then
    match split COLON (substring1 clean) with
    | label :: valueParts =>
        let value := trim (join COLON valueParts) in
        Ok (LabeledField (trim label) value)
    | [] => Throw TypeError
    end
  else if startsWith [DASH] clean then
    Ok (BulletItem (trim (substring1 clean)))
  else
    Ok (Paragraph clean).

(** The callback of [map]: [null] for a line that is empty once cleaned. *)
Definition formatLine (line : jsstring) (index : nat) : result (option Element) :=
  let clean := cleanLine line in
  match clean with
  | [] => Ok None
  | _ :: _ => s <- classify clean ;; Ok (Some (mkElement index s))
  end.

(** [lines.map((line, index) => ...)], from index [i] on. *)
Fixpoint mapIndexed {A B} (f : A -> nat -> result B) (i : nat) (l : list A)
  : result (list B) :=
  match l with
  | [] => Ok []
  | a :: l' =>
      b <- f a i ;;
      bs <- mapIndexed f (S i) l' ;;
      Ok (b :: bs)
  end.

(** [.filter(Boolean)] on an array of elements and [null]s. *)
Fixpoint filterBoolean {A} (l : list (option A)) : list A :=
  match l with
  | [] => []
  | Some a :: l' => a :: filterBoolean l'
  | None :: l' => filterBoolean l'
  end.

Definition formatAnalysis (text : jsstring) : result (list Element) :=
  rendered <- mapIndexed formatLine 0 (split LF text) ;;
  Ok (filterBoolean rendered).

(** The segments alone, in the order rendered. *)
Definition format (text : jsstring) : result (list Segment) :=
  els <- formatAnalysis text ;; Ok (map segment els).

End Formatter.

Import Formatter.

(* ================================================================== *)
(** ** The page state and its handlers *)

Module Page.

(** The part of a DOM [File] the upload handler reads. *)
Record File := mkFile { type : jsstring; size : N }.

(** The four [useState] cells of [Home]. *)
Record State := mkState {
  image : option jsstring;
  analysis : jsstring;
  loading : bool;
  error : option jsstring
}.

(** The page together with what it has asked of its environment: the files
    handed to [FileReader.readAsDataURL] and the image data passed to
    [analyzeImage], oldest first. *)
Record World := mkWorld {
  ui : State;
  reads : list File;
  requests : list (option jsstring)
}.

Definition setImage (v : option jsstring) (w : World) : World :=
  mkWorld (mkState v (analysis (ui w)) (loading (ui w)) (error (ui w)))
          (reads w) (requests w).

Definition setAnalysis (v : jsstring) (w : World) : World :=
  mkWorld (mkState (image (ui w)) v (loading (ui w)) (error (ui w)))
          (reads w) (requests w).

Definition setLoading (v : bool) (w : World) : World :=
  mkWorld (mkState (image (ui w)) (analysis (ui w)) v (error (ui w)))
          (reads w) (requests w).

Definition setError (v : option jsstring) (w : World) : World :=
  mkWorld (mkState (image (ui w)) (analysis (ui w)) (loading (ui w)) v)
          (reads w) (requests w).

Definition readAsDataURL (f : File) (w : World) : World :=
  mkWorld (ui w) (reads w ++ [f]) (requests w).

Definition analyzeImage (imageData : option jsstring) (w : World) : World :=
  mkWorld (ui w) (reads w) (requests w ++ [imageData]).

(** [20 * 1024 * 1024] *)
Definition MAX_SIZE : N := (20 * 1024 * 1024)%N.

(** How the promise of [analyzeImage] settles: the module that implements
    it is outside this file, so its outcome is an input. *)
Inductive Settlement :=
| Fulfilled (result : jsstring)
| RejectedError (message : jsstring)   (* [err instanceof Error] *)
| RejectedOther.

(** [handleAnalyze] up to its [await]. *)
Definition handleAnalyze (imageData : option jsstring) (w : World) : World :=
  analyzeImage imageData (setError None (setLoading true w)).

(** [handleAnalyze] from its [await] on: [try], [catch] and [finally]. *)
Definition handleAnalyzeSettled (o : Settlement) (w : World) : World :=
  setLoading false
    match o with
    | Fulfilled result => setAnalysis result w
    | RejectedError message => setError (Some message) w
    | RejectedOther =>
        setError (Some (lit "Failed to analyze image. Please try again.")) w
    end.

(** [handleImageUpload]; [file] is [e.target.files?.[0]].  Clearing the
    value of the input element changes nothing that is modelled here. *)
Definition handleImageUpload (file : option File) (w : World) : World :=
  match file with
  | None => w
  | Some f =>
      if negb (startsWith (lit "image/") (type f)) then
        setError (Some (lit "Please upload a valid image file")) w
      else if (MAX_SIZE <? size f)%N then
        setError (Some (lit "Image size should be less than 20MB")) w
      else readAsDataURL f w
  end.

(** [reader.onloadend]; [result] is [reader.result]. *)
Definition onloadend (result : option jsstring) (w : World) : World :=
  handleAnalyze result (setError None (setImage result w)).

(** [reader.onerror] *)
Definition onerror (w : World) : World :=
  setError (Some (lit "Failed to read the image file. Please try again.")) w.

(** *** The default content *)

Definition QUOTE : char := 34%N.       (* the double quote *)

(** [DEFAULT_ANALYSIS]: the lines of the template literal, joined by line
    feeds. *)
Definition DEFAULT_ANALYSIS : jsstring :=
  join LF
   [lit "1. Flag Identification:";
    lit "- Country: United States of America";
    lit "- Type: National flag";
    lit "- Adoption Date: June 14, 1777 (original design), July 4, 1960 (current 50-star design)";
    lit "- Aspect Ratio: 10:19";
    lit "- Nicknames: " ++ QUOTE :: lit "Stars and Stripes" ++ QUOTE :: lit ", " ++ QUOTE :: lit "Old Glory" ++ QUOTE :: lit ", " ++ QUOTE :: lit "The Star-Spangled Banner" ++ QUOTE :: [];
    [];
    lit "2. Design Elements:";
    lit "- Colors: Red, White, and Blue";
    lit "- Symbols: 50 white stars on blue canton representing the 50 states, 13 alternating red and white stripes representing the original 13 colonies";
    lit "- Pattern: Rectangular, with a blue rectangle in the upper hoist-side corner";
    lit "- Symbolic Meaning: Stars represent the states in the union, stripes represent the founding colonies, colors represent valor (red), purity and innocence (white), vigilance, perseverance and justice (blue)";
    [];
    lit "3. Historical Context:";
    lit "- Origin: Based on the " ++ QUOTE :: lit "Grand Union Flag" ++ QUOTE :: lit " and influenced by the British East India Company flag";
    lit "- Designer: Unclear for the original, but officially attributed to congressman Francis Hopkinson";
    lit "- Evolution: Has changed 27 times as stars were added for new states";
    lit "- Significant Events: Inspired the national anthem after the Battle of Fort McHenry (1814)";
    lit "- Cultural Impact: One of the most recognizable flags in the world";
    [];
    lit "4. Protocol & Usage:";
    lit "- Official Status: National flag of the United States";
    lit "- Display Guidelines: Should not touch the ground, typically flown from sunrise to sunset";
    lit "- Half-Staff Protocol: By presidential proclamation following significant deaths or tragedies";
    lit "- Disposal Method: Should be burned respectfully when no longer serviceable";
    lit "- Pledge of Allegiance: Associated with flag salute in schools and public events";
    [];
    lit "5. Additional Information:";
    lit "- Flag Day: Celebrated annually on June 14th";
    lit "- Similar Flags: Liberia, Malaysia, and Chile have somewhat similar designs";
    lit "- International Recognition: Universally recognized symbol of the United States";
    lit "- Moon Placement: Six American flags have been placed on the Moon by Apollo missions";
    lit "- Interesting Facts: The current 50-star design was created by a high school student, Robert G. Heft, as a school project"].

(** The state of [Home] at its first render: the initial values of the four
    [useState] cells, nothing asked of the environment yet. *)
Definition initial : World := mkWorld (mkState None [] false None) [] [].

(** How [fetch(DEFAULT_IMAGE)] and [response.blob()] end: a response with
    [ok] set and its blob, a response without [ok], or a rejection. *)
Inductive Fetched := ResponseOk | ResponseNotOk | FetchRejected.

(** [loadDefaultContent] up to its first [await]. *)
Definition loadDefaultContent (w : World) : World := setLoading true w.

(** [loadDefaultContent] after its [await]s: on a good response the blob is
    handed to a [FileReader] (it is not a [File] of the upload input, so it
    is not logged in [reads]); otherwise the [catch] block runs. *)
Definition loadDefaultContentFetched (o : Fetched) (w : World) : World :=
  match o with
  | ResponseOk => w
  | ResponseNotOk | FetchRejected =>
      setLoading false (setError (Some (lit "Failed to load default image")) w)
  end.

(** [reader.onloadend] of [loadDefaultContent]. *)
Definition onloadendDefault (result : option jsstring) (w : World) : World :=
  setLoading false (setAnalysis DEFAULT_ANALYSIS (setImage result w)).

(** [reader.onerror] of [loadDefaultContent]. *)
Definition onerrorDefault (w : World) : World :=
  setLoading false (setError (Some (lit "Failed to load default image")) w).

(** *** Events *)

(** What can happen to the page: the handlers the browser and React call.
    A click on "Identify Flag" comes with the state the button was rendered
    from: its handler closes over the [image] of that render, and the
    button exists only under [image &&] and is disabled by the [loading] of
    that render. *)
Inductive Event :=
| FileChosen (file : option File)
| LoadEnd (result : option jsstring)
| ReadError
| IdentifyClick (rendered : State)
| Settled (o : Settlement)
| Mounted
| FetchSettled (o : Fetched)
| DefaultLoadEnd (result : option jsstring)
| DefaultReadError.

Definition step (w : World) (e : Event) : World :=
  match e with
  | FileChosen file => handleImageUpload file w
  | LoadEnd result => onloadend result w
  | ReadError => onerror w
  | IdentifyClick rendered =>
      match image rendered with
      | Some (_ :: _) =>
          if loading rendered then w else handleAnalyze (image rendered) w
      | _ => w
      end
  | Settled o => handleAnalyzeSettled o w
  | Mounted => loadDefaultContent w
  | FetchSettled o => loadDefaultContentFetched o w
  | DefaultLoadEnd result => onloadendDefault result w
  | DefaultReadError => onerrorDefault w
  end.

Definition run (es : list Event) (w : World) : World := fold_left step es w.

(** How a read of a [FileReader] ends: with the data, or with an error. *)
Inductive ReadOutcome := ReadOk (data : jsstring) | ReadFailed.

(** The events a [FileReader] dispatches when a read ends: [loadend] alone
    concerns the handlers after a success, and [error] followed by
    [loadend], with a [null] result, after a failure. *)
Definition readerEvents (o : ReadOutcome) : list Event :=
  match o with
  | ReadOk data => [LoadEnd (Some data)]
  | ReadFailed => [ReadError; LoadEnd None]
  end.

(** The same for the reader of the default content. *)
Definition defaultReaderEvents (o : ReadOutcome) : list Event :=
  match o with
  | ReadOk data => [DefaultLoadEnd (Some data)]
  | ReadFailed => [DefaultReadError; DefaultLoadEnd None]
  end.

(** What the page shows of a result: the image and its analysis. *)
Definition display (w : World) : option jsstring * jsstring :=
  (image (ui w), analysis (ui w)).

(** The MIME types of the [accept] attribute of the file input. *)
Definition accept : list jsstring :=
  [lit "image/jpeg"; lit "image/png"; lit "image/jpg"; lit "image/webp"].

(** Is [t] one of the types the file input lists? *)
Definition listed (t : jsstring) : bool :=
  existsb (fun a => if list_eq_dec N.eq_dec a t then true else false) accept.

End Page.

Import Page.

(* ================================================================== *)
(** ** Words of the specification *)

Module Spec.

(** Everything before the first occurrence of [sep]. *)
Fixpoint beforeFirst (sep : char) (s : jsstring) : jsstring :=
  match s with
  | [] => []
  | c :: s' => if (c =? sep)%N then [] else c :: beforeFirst sep s'
  end.

(** Everything after the first occurrence of [sep]. *)
Fixpoint afterFirst (sep : char) (s : jsstring) : jsstring :=
  match s with
  | [] => []
  | c :: s' => if (c =? sep)%N then s' else afterFirst sep s'
  end.

Definition allDigits (s : jsstring) : Prop := Forall (fun c => isDigit c = true) s.

Definition allSpaces (s : jsstring) : Prop := Forall (fun c => isSpace c = true) s.

(** [s] does not begin with white space. *)
Definition noLeadingSpace (s : jsstring) : Prop :=
  match s with
  | c :: _ => isSpace c = false
  | [] => True
  end.

(** No character of [s] is one of the four decoration characters. *)
Definition undecorated (s : jsstring) : Prop :=
  Forall (fun c => isDecoration c = false) s.

(** Blank in the sense of "blank after trimming". *)
Definition blank (line : jsstring) : bool :=
  match trim line with [] => true | _ :: _ => false end.

(** Blank once the decoration characters are deleted and the rest trimmed. *)
Definition cleanBlank (line : jsstring) : bool :=
  match cleanLine line with [] => true | _ :: _ => false end.

(** The strings a segment displays. *)
Definition fields (s : Segment) : list jsstring :=
  match s with
  | SectionHeader title => [title]
  | LabeledField label value => [label; value]
  | BulletItem text => [text]
  | Paragraph text => [text]
  end.

(** Indices of the lines that are not blank, in increasing order. *)
Definition indicesWhere (keep : jsstring -> bool) (lines : list jsstring) : list nat :=
  filter (fun i => keep (nth i lines [])) (seq 0 (List.length lines)).

(** A colon or a dash. *)
Definition colonOrDash (c : char) : bool := (c =? COLON)%N || (c =? DASH)%N.

(** The invariant as the specification words it: one element for each line
    that is not blank after trimming, and for no other line, in line order. *)
Definition oneSegmentPerNonBlankLine (text : jsstring) : Prop :=
  exists els,
    formatAnalysis text = Ok els
    /\ map key els = indicesWhere (fun l => negb (blank l)) (split LF text).


(** The page showing a first flag and its analysis, nothing in flight. *)
Definition showingFirst : World :=
  mkWorld (mkState (Some (lit "data:image/png;base64,AAAA"))
                   (lit "1. Flag Identification") false None)
          [] [].

Definition designLine : jsstring := lit "## 12.  Design Elements".
Definition designText : jsstring := designLine ++ LF :: lit "- Colors: Red".
Definition ratioSentence : jsstring := lit "2.75 by 1 is the ratio".
Definition gifFile : File := mkFile (lit "image/gif") 1024.
Definition hugePng : File := mkFile (lit "image/png") (21 * 1024 * 1024).
Definition smallWebp : File := mkFile (lit "image/webp") 2048.
Definition secondImage : jsstring := lit "data:image/png;base64,BBBB".


End Spec.

Import Spec.

(* ================================================================== *)
(** ** What the page renders *)

Module View.

(** The conditional blocks of the JSX returned by [Home]: the error box
    with its message, the spinner, the preview with the [disabled] flag of
    the "Identify Flag" button, and the results with the elements of
    [formatAnalysis(analysis)]. *)
Record View := mkView {
  errorBox : option jsstring;
  spinner : bool;
  preview : option (jsstring * bool);
  results : option (list Element)
}.

(** [error && ...]: a string is truthy when it is not empty. *)
Definition renderError (s : State) : option jsstring :=
  match error s with
  | Some (c :: m) => Some (c :: m)
  | _ => None
  end.

(** [image && ...] *)
Definition renderPreview (s : State) : option (jsstring * bool) :=
  match image s with
  | Some (c :: d) => Some (c :: d, loading s)
  | _ => None
  end.

(** [loading && !image && ...] *)
Definition renderSpinner (s : State) : bool :=
  loading s && match image s with Some (_ :: _) => false | _ => true end.

Definition render (s : State) : result View :=
  match analysis s with
  | [] => Ok (mkView (renderError s) (renderSpinner s) (renderPreview s) None)
  | _ :: _ =>
      els <- formatAnalysis (analysis s) ;;
      Ok (mkView (renderError s) (renderSpinner s) (renderPreview s) (Some els))
  end.

End View.

Import View.

(* ================================================================== *)
(** ** Further words for the properties *)

Module Words.

(** The shape the header pattern recognises: digits, then a period. *)
Definition headerShape (s : jsstring) : Prop :=
  exists ds rest, ds <> [] /\ allDigits ds /\ s = ds ++ DOT :: rest.

(** No white space at either end. *)
Definition trimmed (s : jsstring) : Prop :=
  noLeadingSpace s /\ noLeadingSpace (rev s).

Definition noColon (s : jsstring) : Prop := ~ In COLON s.

(** What each kind of segment can never hold. *)
Definition wellFormed (s : Segment) : Prop :=
  match s with
  | SectionHeader _ => True
  | LabeledField label _ => noColon label
  | BulletItem text => noColon text
  | Paragraph text =>
      text <> [] /\ startsWith [DASH] text = false /\ ~ headerShape text
  end.

(** The segments of a list of lines, line by line. *)
Definition lineSegments (lines : list jsstring) : list Segment :=
  flat_map (fun line =>
              match cleanLine line with
              | [] => []
              | c :: clean =>
                  match classify (c :: clean) with
                  | Ok s => [s]
                  | Throw _ => []
                  end
              end) lines.

(** The image shown is the one the latest analysis request was made for. *)
Definition latestRequestShown (w : World) : Prop :=
  match rev (requests w) with
  | [] => True
  | imageData :: _ => image (ui w) = imageData
  end.

(** The error a settled analysis leaves in the state. *)
Definition settledError (o : Settlement) : option jsstring :=
  match o with
  | Fulfilled _ => None
  | RejectedError message => Some message
  | RejectedOther => Some (lit "Failed to analyze image. Please try again.")
  end.







(** The events of the effect run at mount. *)
Definition isMountEvent (e : Event) : bool :=
  match e with
  | Mounted | FetchSettled _ | DefaultLoadEnd _ | DefaultReadError => true
  | _ => false
  end.

(** A run in which every click on "Identify Flag" is made on a render that
    shows the current image, and in which the default content is not
    loaded after an analysis was requested. *)
Fixpoint inStep (w : World) (es : list Event) : Prop :=
  match es with
  | [] => True
  | e :: es' =>
      match e with
      | IdentifyClick rendered => image rendered = image (ui w)
      | DefaultLoadEnd _ => requests w = []
      | _ => True
      end
      /\ inStep (step w e) es'
  end.

(** An upload that is read and analysed while the default image is still
    being read. *)
Definition uploadBeforeDefault : list Event :=
  [Mounted; FetchSettled ResponseOk;
   FileChosen (Some smallWebp); LoadEnd (Some secondImage);
   DefaultLoadEnd (Some (lit "data:image/jpeg;base64,AAAA"))].

(** Sample inputs. *)
Definition carriageReturn : jsstring := [13%N].
Definition flagDayLine : jsstring := lit "- Flag Day".
Definition starsLine : jsstring := lit "50 stars on a blue canton".
Definition exactLimitPng : File := mkFile (lit "image/png") (20 * 1024 * 1024).
Definition hugePdf : File := mkFile (lit "application/pdf") (30 * 1024 * 1024).

End Words.

Import Words.

(* ================================================================== *)
(** ** String lemmas *)

Section StringFacts.

Variable P : char -> Prop.

Lemma trimStart_decompose (s : jsstring) :
  exists ws, allSpaces ws /\ s = ws ++ trimStart s /\ noLeadingSpace (trimStart s).
Proof.
  induction s as [|c s IH]; simpl.
  - exists []. repeat split. constructor.
  - destruct (isSpace c) eqn:E.
    + destruct IH as (ws & Hws & Heq & Hn).
      exists (c :: ws). repeat split; auto.
      * constructor; assumption.
      * simpl. f_equal. exact Heq.
    + exists []. repeat split; auto. constructor.
Qed.

Lemma trimStart_fixed (s : jsstring) : noLeadingSpace s -> trimStart s = s.
Proof.
  destruct s as [|c s]; simpl; auto. intros ->. reflexivity.
Qed.

Lemma trimStart_app_spaces (ws s : jsstring) :
  allSpaces ws -> trimStart (ws ++ s) = trimStart s.
Proof.
  induction 1 as [|c ws Hc _ IH]; simpl; auto. rewrite Hc. exact IH.
Qed.

Lemma trimStart_spaces (ws : jsstring) : allSpaces ws -> trimStart ws = [].
Proof.
  intros H. rewrite <- (app_nil_r ws). rewrite trimStart_app_spaces; auto.
Qed.

Lemma Forall_trimStart (s : jsstring) : Forall P s -> Forall P (trimStart s).
Proof.
  induction 1 as [|c s Hc Hs IH]; simpl; auto.
  destruct (isSpace c); auto.
Qed.

Lemma Forall_trimEnd (s : jsstring) : Forall P s -> Forall P (trimEnd s).
Proof.
  intros H. unfold trimEnd.
  apply Forall_rev, Forall_trimStart, Forall_rev, H.
Qed.

Lemma Forall_trim (s : jsstring) : Forall P s -> Forall P (trim s).
Proof.
  intros H. apply Forall_trimEnd, Forall_trimStart, H.
Qed.

Lemma Forall_substring1 (s : jsstring) : Forall P s -> Forall P (substring1 s).
Proof.
  destruct 1; simpl; auto.
Qed.

Lemma Forall_splitFrom (sep : char) (s cur : jsstring) :
  Forall P cur -> Forall P s -> Forall (Forall P) (splitFrom sep cur s).
Proof.
  revert cur. induction s as [|c s IH]; simpl; intros cur Hcur Hs.
  - constructor; [apply Forall_rev, Hcur | constructor].
  - inversion Hs; subst.
    destruct (c =? sep)%N.
    + constructor; [apply Forall_rev, Hcur | apply IH; auto].
    + apply IH; auto.
Qed.

Lemma Forall_join (sep : char) (parts : list jsstring) :
  P sep -> Forall (Forall P) parts -> Forall P (join sep parts).
Proof.
  intros Hsep. induction 1 as [|p ps Hp Hps IH]; simpl; auto.
  destruct ps as [|q qs]; auto.
  apply Forall_app. split; auto.
Qed.

Lemma Forall_replaceAllClass (cl : char -> bool) (s : jsstring) :
  Forall P s -> Forall P (replaceAllClass cl s).
Proof.
  induction 1 as [|c s Hc Hs IH]; simpl; auto.
  destruct (cl c); auto.
Qed.

(** What [exec] leaves is a suffix of what it was given. *)
Lemma exec_suffix (r : list atom) :
  forall s rest, exec r s = Some rest -> exists pre, s = pre ++ rest.
Proof.
  induction r as [|[cl qu] r IH]; intros s rest H.
  - simpl in H. injection H as <-. exists []. reflexivity.
  - assert (Hmany : forall s rest,
               exec ((cl, Star) :: r) s = Some rest -> exists pre, s = pre ++ rest).
    { clear s rest H. induction s as [|c s IHs]; intros rest H.
      - apply (IH [] rest H).
      - change (exec ((cl, Star) :: r) (c :: s))
          with (if cl c then
                  match exec ((cl, Star) :: r) s with
                  | Some rest => Some rest
                  | None => exec r (c :: s)
                  end
                else exec r (c :: s)) in H.
        destruct (cl c).
        + destruct (exec ((cl, Star) :: r) s) as [rest'|] eqn:E.
          * injection H as <-. destruct (IHs rest' eq_refl) as [pre ->].
            exists (c :: pre). reflexivity.
          * apply (IH _ _ H).
        + apply (IH _ _ H). }
    destruct qu.
    + destruct s as [|c s]; [discriminate|].
      change (exec ((cl, One) :: r) (c :: s))
        with (if cl c then exec r s else None) in H.
      destruct (cl c); [|discriminate].
      destruct (IH _ _ H) as [pre ->]. exists (c :: pre). reflexivity.
    + destruct s as [|c s]; [discriminate|].
      change (exec ((cl, Plus) :: r) (c :: s))
        with (if cl c then exec ((cl, Star) :: r) s else None) in H.
      destruct (cl c); [|discriminate].
      destruct (Hmany _ _ H) as [pre ->]. exists (c :: pre). reflexivity.
    + apply (Hmany _ _ H).
Qed.

Lemma Forall_replaceAnchored (r : list atom) (s : jsstring) :
  Forall P s -> Forall P (replaceAnchored r s).
Proof.
  intros H. unfold replaceAnchored.
  destruct (exec r s) as [rest|] eqn:E; auto.
  destruct (exec_suffix r s rest E) as [pre ->].
  apply Forall_app in H. tauto.
Qed.

End StringFacts.

Lemma space_not_decoration (c : char) : isSpace c = true -> isDecoration c = false.
Proof.
  intros Hs. destruct (isDecoration c) eqn:Hd; auto.
  unfold isDecoration in Hd.
  repeat (apply orb_true_iff in Hd; destruct Hd as [Hd|Hd]);
    apply N.eqb_eq in Hd; subst c; vm_compute in Hs; discriminate.
Qed.

Lemma trim_spaces (ws : jsstring) : allSpaces ws -> trim ws = [].
Proof.
  intros H. unfold trim. rewrite trimStart_spaces; auto.
Qed.

(** [trim] takes white space, and nothing else, off both ends. *)
Lemma trim_decompose (s : jsstring) :
  exists ws1 ws2,
    allSpaces ws1 /\ allSpaces ws2 /\ s = ws1 ++ trim s ++ ws2
    /\ noLeadingSpace (rev (trim s)).
Proof.
  destruct (trimStart_decompose s) as (ws1 & H1 & Hs & _).
  destruct (trimStart_decompose (rev (trimStart s))) as (ws2 & H2 & Hr & Hn).
  exists ws1, (rev ws2). repeat split; auto.
  - apply Forall_rev, H2.
  - unfold trim, trimEnd. rewrite <- rev_app_distr, <- Hr, rev_involutive. exact Hs.
  - unfold trim, trimEnd. rewrite rev_involutive. exact Hn.
Qed.

Lemma blank_spaces (s : jsstring) : blank s = true -> allSpaces s.
Proof.
  unfold blank. intros H.
  destruct (trim_decompose s) as (ws1 & ws2 & H1 & H2 & Hs & _).
  destruct (trim s); [|discriminate].
  rewrite Hs. apply Forall_app. split; auto.
Qed.

Lemma replaceAllClass_spaces (ws : jsstring) :
  allSpaces ws -> replaceAllClass isDecoration ws = ws.
Proof.
  induction 1 as [|c ws Hc _ IH]; simpl; auto.
  rewrite (space_not_decoration c Hc), IH. reflexivity.
Qed.

Lemma cleanLine_spaces (ws : jsstring) : allSpaces ws -> cleanLine ws = [].
Proof.
  intros H. unfold cleanLine. rewrite replaceAllClass_spaces; auto using trim_spaces.
Qed.

(** The global replace is the deletion of the class. *)
Lemma replaceAllClass_filter (cl : char -> bool) (s : jsstring) :
  replaceAllClass cl s = filter (fun c => negb (cl c)) s.
Proof.
  induction s as [|c s IH]; simpl; auto.
  destruct (cl c); simpl; rewrite IH; reflexivity.
Qed.

Lemma replaceAllClass_clears (cl : char -> bool) (s : jsstring) :
  Forall (fun c => cl c = false) (replaceAllClass cl s).
Proof.
  induction s as [|c s IH]; simpl; auto.
  destruct (cl c) eqn:E; auto.
Qed.

Lemma cleanLine_undecorated (line : jsstring) : undecorated (cleanLine line).
Proof.
  apply Forall_trim, replaceAllClass_clears.
Qed.

(** *** [split] and [join] *)

Lemma splitFrom_cons (sep : char) (s cur : jsstring) :
  exists p ps, splitFrom sep cur s = p :: ps.
Proof.
  revert cur. induction s as [|c s IH]; simpl; intros cur; eauto.
  destruct (c =? sep)%N; eauto.
Qed.

Lemma splitFrom_first (sep : char) (s cur : jsstring) :
  splitFrom sep cur s
  = (rev cur ++ beforeFirst sep s)
      :: (if includes sep s then split sep (afterFirst sep s) else []).
Proof.
  revert cur. induction s as [|c s IH]; simpl; intros cur.
  - rewrite app_nil_r. reflexivity.
  - destruct (c =? sep)%N; simpl.
    + rewrite app_nil_r. reflexivity.
    + rewrite IH. simpl. rewrite <- app_assoc. reflexivity.
Qed.

Lemma join_splitFrom (sep : char) (s cur : jsstring) :
  join sep (splitFrom sep cur s) = rev cur ++ s.
Proof.
  revert cur. induction s as [|c s IH]; simpl; intros cur.
  - rewrite app_nil_r. reflexivity.
  - destruct (N.eqb_spec c sep) as [->|Hne].
    + specialize (IH []).
      destruct (splitFrom_cons sep s []) as (p & ps & E).
      rewrite E in *.
      change (join sep (rev cur :: p :: ps))
        with (rev cur ++ sep :: join sep (p :: ps)).
      rewrite IH. reflexivity.
    + rewrite IH. simpl. rewrite <- app_assoc. reflexivity.
Qed.

Lemma join_split (sep : char) (s : jsstring) : join sep (split sep s) = s.
Proof. apply (join_splitFrom sep s []). Qed.

(** The array pattern [[label, ...valueParts]] on a split string. *)
Lemma split_label_value (sep : char) (s : jsstring) :
  exists valueParts,
    split sep s = beforeFirst sep s :: valueParts
    /\ join sep valueParts = afterFirst sep s.
Proof.
  unfold split at 1. rewrite splitFrom_first. simpl.
  eexists. split; [reflexivity|].
  destruct (includes sep s) eqn:E.
  - apply join_split.
  - simpl. unfold includes in E.
    induction s as [|c s IH]; simpl in *; auto.
    apply orb_false_iff in E. destruct E as [-> E]. auto.
Qed.





(** *** The header patterns *)

Lemma exec_many_greedy (cl : char -> bool) (r : list atom) (xs s rest : jsstring) :
  Forall (fun c => cl c = true) xs ->
  match s with c :: _ => cl c = false | [] => True end ->
  exec r s = Some rest ->
  exec ((cl, Star) :: r) (xs ++ s) = Some rest.
Proof.
  intros Hxs Hs Hr. induction Hxs as [|c xs Hc _ IH].
  - destruct s as [|c s]; simpl app.
    + exact Hr.
    + change (exec ((cl, Star) :: r) (c :: s))
        with (if cl c then
                match exec ((cl, Star) :: r) s with
                | Some rest => Some rest
                | None => exec r (c :: s)
                end
              else exec r (c :: s)).
      rewrite Hs. exact Hr.
  - change (exec ((cl, Star) :: r) ((c :: xs) ++ s))
      with (if cl c then
              match exec ((cl, Star) :: r) (xs ++ s) with
              | Some rest => Some rest
              | None => exec r (c :: xs ++ s)
              end
            else exec r (c :: xs ++ s)).
    rewrite Hc, IH. reflexivity.
Qed.

Lemma exec_digits_dot (r : list atom) (ds s rest : jsstring) :
  ds <> [] -> allDigits ds ->
  exec r s = Some rest ->
  exec ((isDigit, Plus) :: (N.eqb DOT, One) :: r) (ds ++ DOT :: s) = Some rest.
Proof.
  intros Hne Hds Hr. destruct ds as [|d ds]; [congruence|].
  inversion Hds as [|? ? Hd Hds']; subst.
  change (exec ((isDigit, Plus) :: (N.eqb DOT, One) :: r) ((d :: ds) ++ DOT :: s))
    with (if isDigit d
          then exec ((isDigit, Star) :: (N.eqb DOT, One) :: r) (ds ++ DOT :: s)
          else None).
  rewrite Hd. apply exec_many_greedy; auto.
Qed.

Lemma headerTest_matches (ds rest : jsstring) :
  ds <> [] -> allDigits ds -> test headerTest (ds ++ DOT :: rest) = true.
Proof.
  intros Hne Hds. unfold test.
  replace (exec headerTest (ds ++ DOT :: rest)) with (Some rest); auto.
  symmetry. apply (@exec_digits_dot [] ds rest rest); auto.
Qed.

Lemma headerPrefix_strips (ds ws rest : jsstring) :
  ds <> [] -> allDigits ds -> allSpaces ws -> noLeadingSpace rest ->
  replaceAnchored headerPrefix (ds ++ DOT :: ws ++ rest) = rest.
Proof.
  intros Hne Hds Hws Hrest. unfold replaceAnchored.
  replace (exec headerPrefix (ds ++ DOT :: ws ++ rest)) with (Some rest); auto.
  symmetry. apply (@exec_digits_dot [(isSpace, Star)] ds (ws ++ rest) rest); auto.
  apply exec_many_greedy; auto.
Qed.

(* ================================================================== *)
(** ** The formatter: classification *)

Lemma classify_total (clean : jsstring) : exists s, classify clean = Ok s.
Proof.
  unfold classify.
  destruct (test headerTest clean); eauto.
  destruct (startsWith [DASH] clean && includes COLON clean).
  - destruct (split_label_value COLON (substring1 clean)) as (vs & -> & _). eauto.
  - destruct (startsWith [DASH] clean); eauto.
Qed.

Lemma classify_undecorated (clean : jsstring) (s : Segment) :
  undecorated clean -> classify clean = Ok s -> Forall undecorated (fields s).
Proof.
  unfold classify, undecorated. intros Hc H.
  destruct (test headerTest clean).
  { injection H as <-. simpl. repeat constructor.
    apply Forall_replaceAnchored, Hc. }
  destruct (startsWith [DASH] clean && includes COLON clean).
  { pose proof (Forall_splitFrom (fun c => isDecoration c = false)
                  COLON (substring1 clean) [] (Forall_nil _)
                  (Forall_substring1 _ _ Hc)) as Hparts.
    fold (split COLON (substring1 clean)) in Hparts.
    destruct (split COLON (substring1 clean)) as [|label valueParts]; [discriminate|].
    injection H as <-. inversion Hparts; subst. simpl.
    repeat constructor.
    - apply Forall_trim. assumption.
    - apply Forall_trim, Forall_join; auto. }
  destruct (startsWith [DASH] clean); injection H as <-; simpl; repeat constructor; auto.
  apply Forall_trim, Forall_substring1, Hc.
Qed.

Lemma classify_header (ds ws rest : jsstring) :
  ds <> [] -> allDigits ds -> allSpaces ws -> noLeadingSpace rest ->
  classify (ds ++ DOT :: ws ++ rest) = Ok (SectionHeader rest).
Proof.
  intros Hne Hds Hws Hrest. unfold classify.
  rewrite headerTest_matches, headerPrefix_strips; auto.
Qed.


(** ** The formatter: the pass over the lines *)

Lemma formatLine_blank (line : jsstring) (i : nat) :
  cleanBlank line = true -> formatLine line i = Ok None.
Proof.
  unfold cleanBlank, formatLine. destruct (cleanLine line); [reflexivity|discriminate].
Qed.

Lemma formatLine_nonblank (line : jsstring) (i : nat) :
  cleanBlank line = false ->
  exists s, classify (cleanLine line) = Ok s
            /\ formatLine line i = Ok (Some (mkElement i s)).
Proof.
  unfold cleanBlank, formatLine. intros H.
  destruct (classify_total (cleanLine line)) as [s Hs].
  exists s. split; auto.
  destruct (cleanLine line); [discriminate|].
  rewrite Hs. reflexivity.
Qed.

(** The elements [formatAnalysis] keeps, for the lines numbered from [i]. *)
Lemma mapIndexed_formatLine (lines : list jsstring) :
  forall i,
  exists rendered,
    mapIndexed formatLine i lines = Ok rendered
    /\ map key (filterBoolean rendered)
       = filter (fun j => negb (cleanBlank (nth (j - i) lines [])))
                (seq i (List.length lines))
    /\ Forall (fun e => i <= key e
                        /\ classify (cleanLine (nth (key e - i) lines []))
                           = Ok (segment e))
              (filterBoolean rendered).
Proof.
  induction lines as [|l ls IH]; intros i.
  - exists []. repeat split. constructor.
  - destruct (IH (S i)) as (rs & Hrs & Hkeys & Hall).
    assert (Hshift : forall j, S i <= j -> nth (j - i) (l :: ls) [] = nth (j - S i) ls []).
    { intros j Hj. replace (j - i) with (S (j - S i)) by lia. reflexivity. }
    assert (Hfilter :
              filter (fun j => negb (cleanBlank (nth (j - i) (l :: ls) [])))
                     (seq (S i) (List.length ls))
              = map key (filterBoolean rs)).
    { rewrite Hkeys. apply filter_ext_in. intros j Hj.
      apply in_seq in Hj. rewrite Hshift by lia. reflexivity. }
    assert (Hall' :
              Forall (fun e => i <= key e
                               /\ classify (cleanLine (nth (key e - i) (l :: ls) []))
                                  = Ok (segment e))
                     (filterBoolean rs)).
    { eapply Forall_impl; [|exact Hall]. cbv beta. intros e [Hle Hc].
      rewrite Hshift by lia. split; [lia|exact Hc]. }
    cbn [mapIndexed List.length seq filter].
    replace (i - i) with 0 by lia. cbn [nth].
    destruct (cleanBlank l) eqn:Hb.
    + rewrite (formatLine_blank _ _ Hb). cbn [bind]. rewrite Hrs. cbn [bind].
      exists (None :: rs). cbn [filterBoolean negb]. auto.
    + destruct (formatLine_nonblank l i Hb) as (s & Hs & ->).
      cbn [bind]. rewrite Hrs. cbn [bind].
      exists (Some (mkElement i s) :: rs). cbn [filterBoolean negb map key].
      repeat split; auto.
      * f_equal. symmetry. exact Hfilter.
      * constructor; auto. cbn [key segment].
        replace (i - i) with 0 by lia. cbn [nth]. split; auto.
Qed.

(** [formatAnalysis] never raises; it keeps one element for each line that
    is not blank once cleaned, keyed by the index of the line and holding
    the classification of its clean form. *)
Lemma formatAnalysis_spec (text : jsstring) :
  exists els,
    formatAnalysis text = Ok els
    /\ map key els = indicesWhere (fun l => negb (cleanBlank l)) (split LF text)
    /\ Forall (fun e => classify (cleanLine (nth (key e) (split LF text) []))
                        = Ok (segment e)) els.
Proof.
  destruct (mapIndexed_formatLine (split LF text) 0) as (rs & Hrs & Hkeys & Hall).
  exists (filterBoolean rs). unfold formatAnalysis. rewrite Hrs. cbn [bind].
  repeat split.
  - rewrite Hkeys. unfold indicesWhere. apply filter_ext. intros j.
    rewrite Nat.sub_0_r. reflexivity.
  - eapply Forall_impl; [|exact Hall]. cbv beta. intros e [_ Hc].
    rewrite Nat.sub_0_r in Hc. exact Hc.
Qed.

(** The element of one line of a text. *)
Lemma formatAnalysis_line (text : jsstring) (i : nat) (line : jsstring) (s : Segment) :
  nth_error (split LF text) i = Some line ->
  cleanLine line <> [] ->
  classify (cleanLine line) = Ok s ->
  exists els,
    formatAnalysis text = Ok els
    /\ In (mkElement i s) els
    /\ NoDup (map key els).
Proof.
  intros Hnth Hne Hs.
  destruct (formatAnalysis_spec text) as (els & Hf & Hk & Hall).
  exists els. split; [exact Hf|].
  assert (Hlt : i < List.length (split LF text)).
  { apply nth_error_Some. congruence. }
  assert (Hline : nth i (split LF text) [] = line).
  { apply nth_error_nth. exact Hnth. }
  split.
  - assert (Hi : In i (map key els)).
    { rewrite Hk. unfold indicesWhere. apply filter_In. split.
      - apply in_seq. lia.
      - rewrite Hline. unfold cleanBlank.
        destruct (cleanLine line); [congruence|reflexivity]. }
    apply in_map_iff in Hi. destruct Hi as (e & Hkey & Hin).
    rewrite Forall_forall in Hall. specialize (Hall e Hin).
    rewrite Hkey, Hline, Hs in Hall. injection Hall as Hseg.
    destruct e as [k sg]. simpl in Hkey, Hseg. subst. exact Hin.
  - rewrite Hk. apply NoDup_filter, seq_NoDup.
Qed.

Lemma StronglySorted_seq (i n : nat) : StronglySorted lt (seq i n).
Proof.
  revert i. induction n as [|n IH]; intros i; simpl; constructor; auto.
  apply Forall_forall. intros j Hj. apply in_seq in Hj. lia.
Qed.

Lemma StronglySorted_filter (f : nat -> bool) (l : list nat) :
  StronglySorted lt l -> StronglySorted lt (filter f l).
Proof.
  induction 1 as [|a l Hl IH Ha]; simpl; [constructor|].
  destruct (f a); auto. constructor; auto.
  apply Forall_forall. intros j Hj. apply filter_In in Hj.
  rewrite Forall_forall in Ha. apply Ha. tauto.
Qed.

Lemma filter_spaces_nil (keep : char -> bool) (ws : jsstring) :
  (forall c, keep c = true -> isSpace c = false) ->
  allSpaces ws -> filter keep ws = [].
Proof.
  intros Hk. induction 1 as [|c ws Hc _ IH]; simpl; auto.
  destruct (keep c) eqn:E; auto.
  rewrite (Hk c E) in Hc. discriminate.
Qed.

Lemma filter_cleanLine (keep : char -> bool) (line : jsstring) :
  (forall c, keep c = true -> isSpace c = false) ->
  (forall c, keep c = true -> isDecoration c = false) ->
  filter keep (cleanLine line) = filter keep line.
Proof.
  intros Hsp Hdec. unfold cleanLine.
  destruct (trim_decompose (replaceAllClass isDecoration line))
    as (ws1 & ws2 & H1 & H2 & Heq & _).
  transitivity (filter keep (replaceAllClass isDecoration line)).
  - rewrite Heq at 2. rewrite !filter_app.
    rewrite (filter_spaces_nil keep ws1), (filter_spaces_nil keep ws2); auto.
    rewrite app_nil_r. reflexivity.
  - clear - Hdec. induction line as [|c line IH]; simpl; auto.
    destruct (isDecoration c) eqn:Ed; simpl.
    + destruct (keep c) eqn:Ek; auto.
      rewrite (Hdec c Ek) in Ed. discriminate.
    + rewrite IH. reflexivity.
Qed.

Lemma colonOrDash_content (c : char) :
  colonOrDash c = true -> isSpace c = false /\ isDecoration c = false.
Proof.
  unfold colonOrDash. intros H. apply orb_true_iff in H.
  destruct H as [H|H]; apply N.eqb_eq in H; subst c; split; reflexivity.
Qed.

(* ================================================================== *)
(** ** Properties of the formatter *)



(** C2, as amended: [formatAnalysis] keeps exactly one element for every
    line whose clean form (decoration characters deleted, then trimmed) is
    not empty and none for any other line; the keys of the elements are the
    indices of those lines in increasing order, and each element holds the
    classification of its own line.  A line that is blank after trimming
    has an empty clean form. *)
Theorem one_segment_per_clean_nonblank_line :
  (forall text,
      exists els,
        formatAnalysis text = Ok els
        /\ map key els = indicesWhere (fun l => negb (cleanBlank l)) (split LF text)
        /\ StronglySorted lt (map key els)
        /\ Forall (fun e => classify (cleanLine (nth (key e) (split LF text) []))
                            = Ok (segment e)) els)
  /\ (forall line, blank line = true -> cleanBlank line = true).
Proof.
  split.
  - intros text. destruct (formatAnalysis_spec text) as (els & Hf & Hk & Hall).
    exists els. repeat split; auto.
    rewrite Hk. apply StronglySorted_filter, StronglySorted_seq.
  - intros line H. unfold cleanBlank.
    rewrite (cleanLine_spaces line (blank_spaces line H)). reflexivity.
Qed.

Lemma one_segment_per_clean_nonblank_line_witness :
  blank [32%N; 9%N] = true /\ cleanBlank [32%N; 9%N] = true.
Proof.
  assert (H : blank [32%N; 9%N] = true) by (vm_compute; reflexivity).
  split; [exact H|].
  exact (proj2 one_segment_per_clean_nonblank_line [32%N; 9%N] H).
Defined.

(** C2, as stated, fails on a line made of decoration characters: the line
    of three asterisks is not blank after trimming and yet yields no
    element. *)
Lemma decoration_only_line_yields_nothing :
  split LF (lit "***") = [lit "***"]
  /\ blank (lit "***") = false
  /\ formatAnalysis (lit "***") = Ok []
  /\ ~ oneSegmentPerNonBlankLine (lit "***").
Proof.
  repeat split; try (vm_compute; reflexivity).
  intros (els & Hf & Hk).
  vm_compute in Hf. injection Hf as <-.
  vm_compute in Hk. discriminate.
Qed.

(** C5: a line whose clean form is one or more digits, a period, any
    white space and a rest gives exactly one element, a SectionHeader whose
    title is that rest.  The header line of the specification is an
    instance. *)
Theorem section_header_drops_numeric_prefix :
  (forall text i line ds ws rest,
      nth_error (split LF text) i = Some line ->
      ds <> [] -> allDigits ds -> allSpaces ws -> noLeadingSpace rest ->
      cleanLine line = ds ++ DOT :: ws ++ rest ->
      exists els,
        formatAnalysis text = Ok els
        /\ In (mkElement i (SectionHeader rest)) els
        /\ NoDup (map key els))
  /\ format (lit "1. Flag Identification")
     = Ok [SectionHeader (lit "Flag Identification")].
Proof.
  split.
  - intros text i line ds ws rest Hnth Hne Hds Hws Hrest Hclean.
    apply formatAnalysis_line with (line := line); auto.
    + rewrite Hclean. destruct ds; [congruence|discriminate].
    + rewrite Hclean. apply classify_header; auto.
  - vm_compute. reflexivity.
Qed.

Lemma section_header_drops_numeric_prefix_witness :
  nth_error (split LF designText) 0 = Some designLine
  /\ lit "12" <> []
  /\ allDigits (lit "12")
  /\ allSpaces (lit "  ")
  /\ noLeadingSpace (lit "Design Elements")
  /\ cleanLine designLine = lit "12" ++ DOT :: lit "  " ++ lit "Design Elements"
  /\ exists els,
       formatAnalysis designText = Ok els
       /\ In (mkElement 0 (SectionHeader (lit "Design Elements"))) els
       /\ NoDup (map key els).
Proof.
  assert (H1 : nth_error (split LF designText) 0 = Some designLine).
  { vm_compute. reflexivity. }
  assert (H2 : lit "12" <> []) by discriminate.
  assert (H3 : allDigits (lit "12")) by (repeat constructor).
  assert (H4 : allSpaces (lit "  ")) by (repeat constructor).
  assert (H5 : noLeadingSpace (lit "Design Elements")) by reflexivity.
  assert (H6 : cleanLine designLine
               = lit "12" ++ DOT :: lit "  " ++ lit "Design Elements").
  { vm_compute. reflexivity. }
  refine (conj H1 (conj H2 (conj H3 (conj H4 (conj H5 (conj H6 _)))))).
  exact (proj1 section_header_drops_numeric_prefix _ _ _ _ _ _ H1 H2 H3 H4 H5 H6).
Defined.

(** C6: the stripping step deletes the four decoration characters and
    nothing else, so the colons and dashes of a line reach the clean line
    unchanged, in number and in order; the decorated Colors line of the
    specification is classified by its content. *)
Theorem stripping_keeps_colons_and_dashes :
  (forall line,
      replaceAllClass isDecoration line
      = filter (fun c => negb (isDecoration c)) line)
  /\ isDecoration COLON = false
  /\ isDecoration DASH = false
  /\ (forall line,
         filter colonOrDash (cleanLine line) = filter colonOrDash line)
  /\ format (lit "**- Colors**: Red, White, Blue")
     = Ok [LabeledField (lit "Colors") (lit "Red, White, Blue")].
Proof.
  split; [exact (replaceAllClass_filter isDecoration)|].
  split; [reflexivity|]. split; [reflexivity|]. split.
  - intros line. apply filter_cleanLine; intros c Hc;
      apply (colonOrDash_content c Hc).
  - vm_compute. reflexivity.
Qed.

Lemma indicesWhere_none (keep : jsstring -> bool) (lines : list jsstring) :
  Forall (fun l => keep l = false) lines -> indicesWhere keep lines = [].
Proof.
  intros H. unfold indicesWhere.
  assert (G : forall l : list nat,
             Forall (fun j => j < List.length lines) l ->
             filter (fun i => keep (nth i lines [])) l = []).
  { induction 1 as [|j l Hj _ IH]; simpl; auto.
    rewrite Forall_forall in H. rewrite (H _ (nth_In lines [] Hj)). exact IH. }
  apply G. apply Forall_forall. intros j Hj. apply in_seq in Hj. lia.
Qed.

(** C7: [format] returns on every string and never raises: the only method
    call that could, [label.trim()], is always made on a string.  It emits
    at most one segment per line; the empty string and every string of
    white space give the empty sequence. *)
Theorem format_total :
  (forall s,
      exists segs,
        format s = Ok segs /\ List.length segs <= List.length (split LF s))
  /\ format [] = Ok []
  /\ (forall s, allSpaces s -> format s = Ok []).
Proof.
  split; [|split].
  - intros s. destruct (formatAnalysis_spec s) as (els & Hf & Hk & _).
    exists (map segment els). unfold format. rewrite Hf. cbn [bind].
    split; auto.
    rewrite length_map, <- (length_map key), Hk. unfold indicesWhere.
    etransitivity; [apply filter_length_le|]. rewrite length_seq. auto.
  - reflexivity.
  - intros s Hs. destruct (formatAnalysis_spec s) as (els & Hf & Hk & _).
    unfold format. rewrite Hf. cbn [bind].
    rewrite indicesWhere_none in Hk.
    + apply map_eq_nil in Hk. subst els. reflexivity.
    + pose proof (Forall_splitFrom (fun c => isSpace c = true) LF s []
                    (Forall_nil _) Hs) as Hlines.
      eapply Forall_impl; [|exact Hlines]. cbv beta. intros l Hl.
      unfold cleanBlank. rewrite (cleanLine_spaces l Hl). reflexivity.
Qed.

Lemma format_total_witness :
  allSpaces [32%N; LF; 9%N; 160%N] /\ format [32%N; LF; 9%N; 160%N] = Ok [].
Proof.
  assert (H : allSpaces [32%N; LF; 9%N; 160%N]) by (repeat constructor).
  refine (conj H _).
  exact (proj2 (proj2 format_total) _ H).
Defined.

(** C9: cleaning deletes every asterisk, underscore, hash and backtick of
    a line, also those inside its content, so no string displayed by an
    emitted segment contains one: the hash of a colour code and the
    underscore of an identifier are lost. *)
Theorem decoration_characters_never_emitted :
  (forall line, undecorated (cleanLine line))
  /\ (forall text,
         exists els,
           formatAnalysis text = Ok els
           /\ Forall (fun e => Forall undecorated (fields (segment e))) els)
  /\ format (lit "- Color: #FF0000") = Ok [LabeledField (lit "Color") (lit "FF0000")]
  /\ format (lit "The flag_id field") = Ok [Paragraph (lit "The flagid field")].
Proof.
  split; [exact cleanLine_undecorated|]. split; [|split].
  - intros text. destruct (formatAnalysis_spec text) as (els & Hf & _ & Hall).
    exists els. split; auto.
    eapply Forall_impl; [|exact Hall]. cbv beta. intros e He.
    eapply classify_undecorated; [|exact He]. apply cleanLine_undecorated.
  - vm_compute. reflexivity.
  - vm_compute. reflexivity.
Qed.

(** C10: a line whose clean form begins with digits and a period is a
    SectionHeader whatever follows, a sentence that opens with a decimal
    number included: only the digits, the first period and the white space
    after it are dropped, so "3.5 meters ..." gives the title
    "5 meters ...". *)
Theorem decimal_sentence_is_section_header :
  (forall text i line ds rest,
      nth_error (split LF text) i = Some line ->
      ds <> [] -> allDigits ds ->
      cleanLine line = ds ++ DOT :: rest ->
      exists els ws,
        formatAnalysis text = Ok els
        /\ In (mkElement i (SectionHeader (trimStart rest))) els
        /\ NoDup (map key els)
        /\ allSpaces ws
        /\ rest = ws ++ trimStart rest
        /\ noLeadingSpace (trimStart rest))
  /\ format (lit "3.5 meters is the official width")
     = Ok [SectionHeader (lit "5 meters is the official width")].
Proof.
  split.
  - intros text i line ds rest Hnth Hne Hds Hclean.
    destruct (trimStart_decompose rest) as (ws & Hws & Hrest & Hn).
    destruct (formatAnalysis_line text i line (SectionHeader (trimStart rest)))
      as (els & Hf & Hin & Hnd); auto.
    + rewrite Hclean. destruct ds; [congruence|discriminate].
    + rewrite Hclean. rewrite Hrest at 1. apply classify_header; auto.
    + exists els, ws. auto 10.
  - vm_compute. reflexivity.
Qed.

Lemma decimal_sentence_is_section_header_witness :
  nth_error (split LF ratioSentence) 0 = Some ratioSentence
  /\ lit "2" <> []
  /\ allDigits (lit "2")
  /\ cleanLine ratioSentence = lit "2" ++ DOT :: lit "75 by 1 is the ratio"
  /\ exists els ws,
       formatAnalysis ratioSentence = Ok els
       /\ In (mkElement 0 (SectionHeader (trimStart (lit "75 by 1 is the ratio")))) els
       /\ NoDup (map key els)
       /\ allSpaces ws
       /\ lit "75 by 1 is the ratio" = ws ++ trimStart (lit "75 by 1 is the ratio")
       /\ noLeadingSpace (trimStart (lit "75 by 1 is the ratio")).
Proof.
  assert (H1 : nth_error (split LF ratioSentence) 0 = Some ratioSentence).
  { vm_compute. reflexivity. }
  assert (H2 : lit "2" <> []) by discriminate.
  assert (H3 : allDigits (lit "2")) by (repeat constructor).
  assert (H4 : cleanLine ratioSentence = lit "2" ++ DOT :: lit "75 by 1 is the ratio").
  { vm_compute. reflexivity. }
  refine (conj H1 (conj H2 (conj H3 (conj H4 _)))).
  exact (proj1 decimal_sentence_is_section_header _ _ _ _ _ H1 H2 H3 H4).
Defined.

(* ================================================================== *)
(** ** Properties of the upload and analysis handlers *)

Lemma handleImageUpload_accepts (f : File) (w : World) :
  startsWith (lit "image/") (type f) = true ->
  (size f <= MAX_SIZE)%N ->
  handleImageUpload (Some f) w = readAsDataURL f w.
Proof.
  intros Ht Hs. unfold handleImageUpload. rewrite Ht. cbn [negb].
  destruct (N.ltb_spec MAX_SIZE (size f)); [lia|reflexivity].
Qed.


(** C3: the handler lets through every file whose type begins with
    "image/" and whose size is at most 20 * 1024 * 1024 bytes; a GIF, which
    is not among the types the file input lists, is read and sent for
    analysis. *)
Theorem gif_upload_is_analyzed :
  listed (type gifFile) = false
  /\ (forall w, handleImageUpload (Some gifFile) w = readAsDataURL gifFile w)
  /\ (forall w data,
         requests (run [FileChosen (Some gifFile); LoadEnd data] w)
         = requests w ++ [data]).
Proof.
  split; [|split].
  - vm_compute. reflexivity.
  - intros w. apply handleImageUpload_accepts; vm_compute; congruence.
  - intros w data. reflexivity.
Qed.

(** C8: when the handler rejects a file, for its type or for its size, it
    sets the error message and does nothing else: no file read is started
    and no analysis request is made, and the image, the analysis and the
    loading flag are as before. *)
Theorem rejected_upload_only_sets_error (w : World) (f : File) :
  startsWith (lit "image/") (type f) = false \/ (MAX_SIZE < size f)%N ->
  let w' := handleImageUpload (Some f) w in
  requests w' = requests w
  /\ reads w' = reads w
  /\ image (ui w') = image (ui w)
  /\ analysis (ui w') = analysis (ui w)
  /\ loading (ui w') = loading (ui w)
  /\ (error (ui w') = Some (lit "Please upload a valid image file")
      \/ error (ui w') = Some (lit "Image size should be less than 20MB")).
Proof.
  intros H. cbv zeta. unfold handleImageUpload.
  destruct (startsWith (lit "image/") (type f)) eqn:Et; cbn [negb].
  - destruct H as [H|H]; [discriminate|].
    destruct (N.ltb_spec MAX_SIZE (size f)); [|lia].
    cbn. tauto.
  - cbn. tauto.
Qed.

Lemma rejected_upload_only_sets_error_witness :
  (startsWith (lit "image/") (type hugePng) = false \/ (MAX_SIZE < size hugePng)%N)
  /\ requests (handleImageUpload (Some hugePng) showingFirst) = requests showingFirst
  /\ display (handleImageUpload (Some hugePng) showingFirst) = display showingFirst.
Proof.
  assert (H : startsWith (lit "image/") (type hugePng) = false
              \/ (MAX_SIZE < size hugePng)%N).
  { right. vm_compute. reflexivity. }
  refine (conj H _).
  destruct (rejected_upload_only_sets_error showingFirst hugePng H)
    as (Hr & _ & Hi & Ha & _).
  split; [exact Hr|]. unfold display. rewrite Hi, Ha. reflexivity.
Defined.






(* ================================================================== *)
(** ** More on the formatter *)

(** *** The header pattern, read backwards *)

Lemma exec_star_inv (cl : char -> bool) (r : list atom) (s rest : jsstring) :
  exec ((cl, Star) :: r) s = Some rest ->
  exists xs s2,
    Forall (fun c => cl c = true) xs /\ s = xs ++ s2 /\ exec r s2 = Some rest.
Proof.
  induction s as [|c s IH]; intros H.
  - exists [], []. repeat split; [constructor|exact H].
  - change (exec ((cl, Star) :: r) (c :: s))
      with (if cl c then
              match exec ((cl, Star) :: r) s with
              | Some rest => Some rest
              | None => exec r (c :: s)
              end
            else exec r (c :: s)) in H.
    destruct (cl c) eqn:Ec.
    + destruct (exec ((cl, Star) :: r) s) as [rest'|] eqn:E.
      * injection H as <-. destruct (IH eq_refl) as (xs & s2 & Hxs & -> & Hr).
        exists (c :: xs), s2. repeat split; auto.
      * exists [], (c :: s). repeat split; [constructor|exact H].
    + exists [], (c :: s). repeat split; [constructor|exact H].
Qed.

Lemma headerTest_inv (s : jsstring) : test headerTest s = true -> headerShape s.
Proof.
  unfold test. destruct (exec headerTest s) as [rest|] eqn:E; [intros _|discriminate].
  destruct s as [|c s]; [discriminate|].
  change (exec headerTest (c :: s))
    with (if isDigit c
          then exec [(isDigit, Star); (N.eqb DOT, One)] s
          else None) in E.
  destruct (isDigit c) eqn:Ec; [|discriminate].
  destruct (exec_star_inv _ _ _ _ E) as (xs & s2 & Hxs & -> & Hr).
  destruct s2 as [|d s2]; [discriminate|].
  change (exec [(N.eqb DOT, One)] (d :: s2))
    with (if (DOT =? d)%N then Some s2 else None) in Hr.
  destruct (N.eqb_spec DOT d) as [<-|]; [|discriminate].
  exists (c :: xs), s2. repeat split.
  - discriminate.
  - constructor; assumption.
Qed.

Lemma headerTitle (ds rest : jsstring) :
  ds <> [] -> allDigits ds ->
  replaceAnchored headerPrefix (ds ++ DOT :: rest) = trimStart rest.
Proof.
  intros Hne Hds.
  destruct (trimStart_decompose rest) as (ws & Hws & Hrest & Hn).
  rewrite Hrest at 1. apply headerPrefix_strips; auto.
Qed.

(** *** The last two branches of the classification *)

Lemma includes_false (c : char) (s : jsstring) : includes c s = false <-> ~ In c s.
Proof.
  unfold includes. split.
  - intros H Hin. assert (X : existsb (fun c' => (c' =? c)%N) s = true).
    { apply existsb_exists. exists c. split; [exact Hin|apply N.eqb_refl]. }
    congruence.
  - intros H. destruct (existsb (fun c' => (c' =? c)%N) s) eqn:E; auto.
    apply existsb_exists in E. destruct E as (c' & Hin & Hc).
    apply N.eqb_eq in Hc. subst. contradiction.
Qed.

Lemma classify_bullet (body : jsstring) :
  ~ In COLON body -> classify (DASH :: body) = Ok (BulletItem (trim body)).
Proof.
  intros H. unfold classify.
  change (test headerTest (DASH :: body)) with false.
  change (startsWith [DASH] (DASH :: body)) with true.
  change (includes COLON (DASH :: body)) with (includes COLON body).
  apply includes_false in H. rewrite H. reflexivity.
Qed.

Lemma classify_paragraph (clean : jsstring) :
  test headerTest clean = false -> startsWith [DASH] clean = false ->
  classify clean = Ok (Paragraph clean).
Proof.
  intros Ht Hd. unfold classify. rewrite Ht, Hd. reflexivity.
Qed.

(** X1: a line whose clean form is a dash followed by text without a colon
    gives exactly one element, a BulletItem with that text trimmed; a line
    that is only a dash gives a BulletItem with empty text. *)
Theorem bullet_item_without_colon (text : jsstring) (i : nat) (line body : jsstring) :
  nth_error (split LF text) i = Some line ->
  cleanLine line = DASH :: body ->
  ~ In COLON body ->
  exists els,
    formatAnalysis text = Ok els
    /\ In (mkElement i (BulletItem (trim body))) els
    /\ NoDup (map key els).
Proof.
  intros Hnth Hclean Hbody.
  apply formatAnalysis_line with (line := line); auto.
  - rewrite Hclean. discriminate.
  - rewrite Hclean. apply classify_bullet, Hbody.
Qed.

Lemma bullet_item_without_colon_witness :
  nth_error (split LF [DASH]) 0 = Some [DASH]
  /\ cleanLine [DASH] = DASH :: []
  /\ ~ In COLON []
  /\ exists els,
       formatAnalysis [DASH] = Ok els
       /\ In (mkElement 0 (BulletItem (trim []))) els
       /\ NoDup (map key els).
Proof.
  assert (H1 : nth_error (split LF [DASH]) 0 = Some [DASH]) by reflexivity.
  assert (H2 : cleanLine [DASH] = DASH :: []) by reflexivity.
  assert (H3 : ~ In COLON []) by (intros H; exact H).
  refine (conj H1 (conj H2 (conj H3 _))).
  exact (bullet_item_without_colon [DASH] 0 [DASH] [] H1 H2 H3).
Defined.

(** X2: a line whose clean form is not empty, does not start with a dash
    and is not matched by the header pattern gives exactly one element, a
    Paragraph holding the clean line itself. *)
Theorem paragraph_is_the_fallback (text : jsstring) (i : nat) (line : jsstring) :
  nth_error (split LF text) i = Some line ->
  cleanLine line <> [] ->
  test headerTest (cleanLine line) = false ->
  startsWith [DASH] (cleanLine line) = false ->
  exists els,
    formatAnalysis text = Ok els
    /\ In (mkElement i (Paragraph (cleanLine line))) els
    /\ NoDup (map key els).
Proof.
  intros Hnth Hne Ht Hd.
  apply formatAnalysis_line with (line := line); auto.
  apply classify_paragraph; assumption.
Qed.

Lemma paragraph_is_the_fallback_witness :
  nth_error (split LF starsLine) 0 = Some starsLine
  /\ cleanLine starsLine <> []
  /\ test headerTest (cleanLine starsLine) = false
  /\ startsWith [DASH] (cleanLine starsLine) = false
  /\ exists els,
       formatAnalysis starsLine = Ok els
       /\ In (mkElement 0 (Paragraph (cleanLine starsLine))) els
       /\ NoDup (map key els).
Proof.
  assert (H1 : nth_error (split LF starsLine) 0 = Some starsLine)
    by (vm_compute; reflexivity).
  assert (H2 : cleanLine starsLine <> []) by (vm_compute; discriminate).
  assert (H3 : test headerTest (cleanLine starsLine) = false)
    by (vm_compute; reflexivity).
  assert (H4 : startsWith [DASH] (cleanLine starsLine) = false)
    by (vm_compute; reflexivity).
  refine (conj H1 (conj H2 (conj H3 (conj H4 _)))).
  exact (paragraph_is_the_fallback starsLine 0 starsLine H1 H2 H3 H4).
Defined.

(** X3: the header pattern [/^\d+\./] accepts a string exactly when it
    begins with one or more digits followed by a period; the title left by
    [/^\d+\.\s*/] is then what follows the period, without its leading
    white space. *)
Theorem header_pattern_characterised (s : jsstring) :
  (test headerTest s = true <-> headerShape s)
  /\ (forall ds rest,
         ds <> [] -> allDigits ds -> s = ds ++ DOT :: rest ->
         replaceAnchored headerPrefix s = trimStart rest).
Proof.
  split; [split|].
  - apply headerTest_inv.
  - intros (ds & rest & Hne & Hds & ->). apply headerTest_matches; assumption.
  - intros ds rest Hne Hds ->. apply headerTitle; assumption.
Qed.

Lemma header_pattern_characterised_witness :
  lit "50" <> [] /\ allDigits (lit "50")
  /\ lit "50. stars" = lit "50" ++ DOT :: lit " stars"
  /\ replaceAnchored headerPrefix (lit "50. stars") = trimStart (lit " stars").
Proof.
  assert (H1 : lit "50" <> []) by discriminate.
  assert (H2 : allDigits (lit "50")) by (repeat constructor).
  assert (H3 : lit "50. stars" = lit "50" ++ DOT :: lit " stars") by reflexivity.
  refine (conj H1 (conj H2 (conj H3 _))).
  exact (proj2 (header_pattern_characterised (lit "50. stars")) _ _ H1 H2 H3).
Defined.

(** *** Every displayed string is trimmed *)

Lemma trimEnd_noLeading (t : jsstring) :
  noLeadingSpace t -> noLeadingSpace (trimEnd t).
Proof.
  intros Ht. unfold trimEnd.
  destruct (trimStart_decompose (rev t)) as (ws & _ & Heq & _).
  apply (f_equal (@rev char)) in Heq.
  rewrite rev_involutive, rev_app_distr in Heq.
  destruct (rev (trimStart (rev t))) as [|c u]; simpl; auto.
  rewrite Heq in Ht. exact Ht.
Qed.

Lemma trim_trimmed (s : jsstring) : trimmed (trim s).
Proof.
  split.
  - unfold trim. apply trimEnd_noLeading.
    destruct (trimStart_decompose s) as (ws & _ & _ & Hn). exact Hn.
  - destruct (trim_decompose s) as (ws1 & ws2 & _ & _ & _ & Hn). exact Hn.
Qed.

Lemma cleanLine_trimmed (line : jsstring) : trimmed (cleanLine line).
Proof. apply trim_trimmed. Qed.

Lemma suffix_noTrailing (pre t : jsstring) :
  noLeadingSpace (rev (pre ++ t)) -> noLeadingSpace (rev t).
Proof.
  rewrite rev_app_distr. destruct (rev t); simpl; auto.
Qed.

Lemma classify_trimmed (clean : jsstring) (s : Segment) :
  trimmed clean -> classify clean = Ok s -> Forall trimmed (fields s).
Proof.
  intros [Hl Hr] H. unfold classify in H.
  destruct (test headerTest clean) eqn:Et.
  { injection H as <-. simpl. constructor; [|constructor].
    destruct (headerTest_inv clean Et) as (ds & rest & Hne & Hds & ->).
    rewrite headerTitle by assumption.
    destruct (trimStart_decompose rest) as (ws & _ & Hrest & Hn).
    split; [exact Hn|].
    apply (suffix_noTrailing (ds ++ DOT :: ws)).
    rewrite <- app_assoc. simpl. rewrite <- Hrest. exact Hr. }
  destruct (startsWith [DASH] clean && includes COLON clean).
  { destruct (split COLON (substring1 clean)) as [|label valueParts]; [discriminate|].
    injection H as <-. simpl. repeat constructor; apply trim_trimmed. }
  destruct (startsWith [DASH] clean); injection H as <-; simpl;
    repeat constructor; auto; apply trim_trimmed.
Qed.

(** X4: no string displayed by an emitted segment begins or ends with
    white space: titles, labels, values and texts are all trimmed. *)
Theorem displayed_strings_are_trimmed (text : jsstring) :
  exists els,
    formatAnalysis text = Ok els
    /\ Forall (fun e => Forall trimmed (fields (segment e))) els.
Proof.
  destruct (formatAnalysis_spec text) as (els & Hf & _ & Hall).
  exists els. split; auto.
  eapply Forall_impl; [|exact Hall]. cbv beta. intros e He.
  eapply classify_trimmed; [|exact He]. apply cleanLine_trimmed.
Qed.

(** *** What a segment never holds *)

Lemma beforeFirst_no_sep (sep : char) (s : jsstring) : ~ In sep (beforeFirst sep s).
Proof.
  induction s as [|c s IH]; simpl; auto.
  destruct (N.eqb_spec c sep) as [->|Hne]; simpl; auto.
  intros [E|E]; [congruence|auto].
Qed.

Lemma noColon_trim (s : jsstring) : noColon s -> noColon (trim s).
Proof.
  unfold noColon. intros H Hin.
  assert (F : Forall (fun c => c <> COLON) (trim s)).
  { apply Forall_trim, Forall_forall. intros c Hc ->. contradiction. }
  rewrite Forall_forall in F. exact (F COLON Hin eq_refl).
Qed.

Lemma classify_wellFormed (clean : jsstring) (s : Segment) :
  clean <> [] -> classify clean = Ok s -> wellFormed s.
Proof.
  intros Hne H. unfold classify in H.
  destruct (test headerTest clean) eqn:Et.
  { injection H as <-. exact I. }
  destruct (startsWith [DASH] clean) eqn:Ed; cbn [andb] in H.
  - destruct (includes COLON clean) eqn:Ec.
    + destruct (split_label_value COLON (substring1 clean)) as (vs & Hs & _).
      rewrite Hs in H. injection H as <-. simpl.
      apply noColon_trim, beforeFirst_no_sep.
    + injection H as <-. simpl. apply noColon_trim.
      apply includes_false in Ec. intros Hin. apply Ec.
      destruct clean; simpl in *; auto.
  - injection H as <-. simpl. repeat split; auto.
    intros (ds & rest & Hn & Hds & ->).
    rewrite headerTest_matches in Et by assumption. discriminate.
Qed.

(** X5: the label of a LabeledField and the text of a BulletItem never
    contain a colon; the text of a Paragraph is never empty, never starts
    with a dash and never has the digits-and-period shape of a header. *)
Theorem segments_are_well_formed (text : jsstring) :
  exists els,
    formatAnalysis text = Ok els
    /\ Forall (fun e => wellFormed (segment e)) els.
Proof.
  destruct (formatAnalysis_spec text) as (els & Hf & Hk & Hall).
  exists els. split; auto.
  assert (Hkeys : Forall (fun e => In (key e) (map key els)) els).
  { apply Forall_forall. intros e He. apply in_map, He. }
  rewrite Hk in Hkeys.
  rewrite Forall_forall in *. intros e He.
  specialize (Hall e He). specialize (Hkeys e He).
  unfold indicesWhere in Hkeys. apply filter_In in Hkeys. destruct Hkeys as [_ Hnb].
  apply (classify_wellFormed (cleanLine (nth (key e) (split LF text) []))); auto.
  unfold cleanBlank in Hnb.
  destruct (cleanLine (nth (key e) (split LF text) [])); [discriminate|discriminate].
Qed.

(** *** The formatter works line by line *)

Lemma splitFrom_app (sep : char) (a b cur : jsstring) :
  splitFrom sep cur (a ++ sep :: b) = splitFrom sep cur a ++ split sep b.
Proof.
  revert cur. induction a as [|c a IH]; intros cur; simpl.
  - rewrite N.eqb_refl. reflexivity.
  - destruct (c =? sep)%N; rewrite IH; reflexivity.
Qed.

Lemma mapIndexed_lineSegments (lines : list jsstring) :
  forall i,
  exists rendered,
    mapIndexed formatLine i lines = Ok rendered
    /\ map segment (filterBoolean rendered) = lineSegments lines.
Proof.
  induction lines as [|l ls IH]; intros i.
  - exists []. split; reflexivity.
  - destruct (IH (S i)) as (rs & Hrs & Hseg).
    cbn [mapIndexed lineSegments flat_map].
    destruct (cleanBlank l) eqn:Hb.
    + rewrite (formatLine_blank l i Hb). cbn [bind]. rewrite Hrs. cbn [bind].
      exists (None :: rs). split; [reflexivity|].
      unfold cleanBlank in Hb. destruct (cleanLine l); [exact Hseg|discriminate].
    + destruct (formatLine_nonblank l i Hb) as (s & Hs & ->).
      cbn [bind]. rewrite Hrs. cbn [bind]. exists (Some (mkElement i s) :: rs).
      split; [reflexivity|]. cbn [filterBoolean map segment].
      unfold cleanBlank in Hb. destruct (cleanLine l) as [|c clean]; [discriminate|].
      rewrite Hs. cbn [app]. f_equal. exact Hseg.
Qed.

Lemma format_lineSegments (text : jsstring) :
  format text = Ok (lineSegments (split LF text)).
Proof.
  destruct (mapIndexed_lineSegments (split LF text) 0) as (rs & Hrs & Hseg).
  unfold format, formatAnalysis. rewrite Hrs. cbn [bind]. rewrite Hseg. reflexivity.
Qed.

(** X6: formatting two texts joined by a line feed gives the segments of
    the first followed by the segments of the second: no line influences
    the classification of another. *)
Theorem format_of_joined_texts (a b : jsstring) :
  format (a ++ LF :: b)
  = (sa <- format a ;; sb <- format b ;; Ok (sa ++ sb)).
Proof.
  rewrite !format_lineSegments. cbn [bind]. f_equal.
  unfold split at 1. rewrite splitFrom_app.
  unfold lineSegments. apply flat_map_app.
Qed.

(** *** White space around a line *)

Lemma trimStart_app (x z : jsstring) :
  trimStart (x ++ z)
  = match trimStart x with [] => trimStart z | _ :: _ => trimStart x ++ z end.
Proof.
  induction x as [|c x IH]; simpl.
  - destruct (trimStart z); reflexivity.
  - destruct (isSpace c); [exact IH|reflexivity].
Qed.

Lemma trimEnd_app_spaces (y ws : jsstring) :
  allSpaces ws -> trimEnd (y ++ ws) = trimEnd y.
Proof.
  intros H. unfold trimEnd. rewrite rev_app_distr, trimStart_app_spaces; auto.
  apply Forall_rev, H.
Qed.

Lemma trim_app_spaces (ws1 x ws2 : jsstring) :
  allSpaces ws1 -> allSpaces ws2 -> trim (ws1 ++ x ++ ws2) = trim x.
Proof.
  intros H1 H2. unfold trim.
  rewrite trimStart_app_spaces by assumption. rewrite trimStart_app.
  destruct (trimStart x) as [|c t].
  - rewrite (trimStart_spaces ws2 H2). reflexivity.
  - apply trimEnd_app_spaces, H2.
Qed.

Lemma replaceAllClass_app (cl : char -> bool) (x y : jsstring) :
  replaceAllClass cl (x ++ y) = replaceAllClass cl x ++ replaceAllClass cl y.
Proof.
  induction x as [|c x IH]; simpl; auto.
  destruct (cl c); rewrite IH; reflexivity.
Qed.

Lemma cleanLine_padded (ws1 line ws2 : jsstring) :
  allSpaces ws1 -> allSpaces ws2 -> cleanLine (ws1 ++ line ++ ws2) = cleanLine line.
Proof.
  intros H1 H2. unfold cleanLine.
  rewrite !replaceAllClass_app.
  rewrite (replaceAllClass_spaces ws1 H1), (replaceAllClass_spaces ws2 H2).
  apply trim_app_spaces; assumption.
Qed.

(** X7: white space before and after a line never changes what the line
    gives: an indented line, or one that ends with a carriage return, is
    rendered like the bare line. *)
Theorem surrounding_space_is_ignored (ws1 line ws2 : jsstring) (i : nat) :
  allSpaces ws1 -> allSpaces ws2 ->
  formatLine (ws1 ++ line ++ ws2) i = formatLine line i.
Proof.
  intros H1 H2. unfold formatLine. rewrite cleanLine_padded by assumption.
  reflexivity.
Qed.

Lemma surrounding_space_is_ignored_witness :
  allSpaces (lit "    ") /\ allSpaces carriageReturn
  /\ formatLine (lit "    " ++ flagDayLine ++ carriageReturn) 3 = formatLine flagDayLine 3.
Proof.
  assert (H1 : allSpaces (lit "    ")) by (repeat constructor).
  assert (H2 : allSpaces carriageReturn) by (repeat constructor).
  refine (conj H1 (conj H2 _)).
  exact (surrounding_space_is_ignored (lit "    ") flagDayLine carriageReturn 3 H1 H2).
Defined.

(** *** Cleaning twice *)

Lemma replaceAllClass_undecorated (s : jsstring) :
  undecorated s -> replaceAllClass isDecoration s = s.
Proof.
  induction 1 as [|c s Hc _ IH]; simpl; auto.
  rewrite Hc, IH. reflexivity.
Qed.

Lemma trim_fixed (s : jsstring) : trimmed s -> trim s = s.
Proof.
  intros [Hl Hr]. unfold trim, trimEnd.
  rewrite (trimStart_fixed s Hl), (trimStart_fixed (rev s) Hr).
  apply rev_involutive.
Qed.

Lemma cleanLine_idempotent (line : jsstring) :
  cleanLine (cleanLine line) = cleanLine line.
Proof.
  unfold cleanLine at 1.
  rewrite (replaceAllClass_undecorated _ (cleanLine_undecorated line)).
  apply trim_fixed, cleanLine_trimmed.
Qed.

(** X8: cleaning is idempotent: a line that was already cleaned is left as
    it is, so it gives the same element as the line it came from. *)
Theorem cleaned_line_formats_alike (line : jsstring) (i : nat) :
  cleanLine (cleanLine line) = cleanLine line
  /\ formatLine (cleanLine line) i = formatLine line i.
Proof.
  split; [apply cleanLine_idempotent|].
  unfold formatLine. rewrite cleanLine_idempotent. reflexivity.
Qed.

(* ================================================================== *)
(** ** More on the handlers *)

(** X9: the upload handler hands a file to the reader exactly when its type
    begins with "image/" and its size is at most 20 * 1024 * 1024 bytes; a
    file of exactly that size is read. *)
Theorem upload_is_read_iff (w : World) (f : File) :
  reads (handleImageUpload (Some f) w) = reads w ++ [f]
  <-> startsWith (lit "image/") (type f) = true /\ (size f <= MAX_SIZE)%N.
Proof.
  assert (Hfresh : reads w <> reads w ++ [f]).
  { intros E. apply (f_equal (@List.length File)) in E.
    rewrite length_app in E. simpl in E. lia. }
  split.
  - intros H. unfold handleImageUpload in H.
    destruct (startsWith (lit "image/") (type f)); cbn [negb] in H.
    + destruct (N.ltb_spec MAX_SIZE (size f)); [|split; auto].
      exfalso. apply Hfresh. exact H.
    + exfalso. apply Hfresh. exact H.
  - intros [Ht Hs]. rewrite (handleImageUpload_accepts f w Ht Hs). reflexivity.
Qed.

Lemma upload_is_read_iff_witness :
  (startsWith (lit "image/") (type exactLimitPng) = true
   /\ (size exactLimitPng <= MAX_SIZE)%N)
  /\ reads (handleImageUpload (Some exactLimitPng) showingFirst)
     = reads showingFirst ++ [exactLimitPng].
Proof.
  assert (H : startsWith (lit "image/") (type exactLimitPng) = true
              /\ (size exactLimitPng <= MAX_SIZE)%N).
  { split; [reflexivity|]. vm_compute. discriminate. }
  refine (conj H _).
  exact (proj2 (upload_is_read_iff showingFirst exactLimitPng) H).
Defined.

(** X10: the type is checked before the size: a file that is not an image
    gets the message about a valid image file even when it is also too
    large, and only an image that is too large gets the message about the
    size. *)
Theorem upload_error_message (w : World) (f : File) :
  (startsWith (lit "image/") (type f) = false ->
   error (ui (handleImageUpload (Some f) w))
   = Some (lit "Please upload a valid image file"))
  /\ (startsWith (lit "image/") (type f) = true -> (MAX_SIZE < size f)%N ->
      error (ui (handleImageUpload (Some f) w))
      = Some (lit "Image size should be less than 20MB")).
Proof.
  unfold handleImageUpload. split.
  - intros ->. reflexivity.
  - intros -> Hs. cbn [negb].
    destruct (N.ltb_spec MAX_SIZE (size f)); [reflexivity|lia].
Qed.

Lemma upload_error_message_witness :
  startsWith (lit "image/") (type hugePdf) = false
  /\ (MAX_SIZE < size hugePdf)%N
  /\ error (ui (handleImageUpload (Some hugePdf) showingFirst))
     = Some (lit "Please upload a valid image file").
Proof.
  assert (H1 : startsWith (lit "image/") (type hugePdf) = false) by reflexivity.
  assert (H2 : (MAX_SIZE < size hugePdf)%N) by (vm_compute; reflexivity).
  refine (conj H1 (conj H2 _)).
  exact (proj1 (upload_error_message showingFirst hugePdf) H1).
Defined.

(** X11: once an accepted upload has been read and its analysis has
    settled, the loading flag is off and the error is what the settlement
    left: none after a success, whatever error was shown before, the
    message of the error after a rejection with an Error, and the fixed
    text otherwise. *)
Theorem upload_attempt_final_state (w : World) (f : File)
    (data : option jsstring) (o : Settlement) :
  startsWith (lit "image/") (type f) = true ->
  (size f <= MAX_SIZE)%N ->
  ui (run [FileChosen (Some f); LoadEnd data; Settled o] w)
  = mkState data
      match o with Fulfilled result => result | _ => analysis (ui w) end
      false (settledError o).
Proof.
  intros Ht Hs. unfold run. cbn [fold_left step].
  rewrite (handleImageUpload_accepts f w Ht Hs).
  destruct o; reflexivity.
Qed.

Lemma upload_attempt_final_state_witness :
  startsWith (lit "image/") (type smallWebp) = true
  /\ (size smallWebp <= MAX_SIZE)%N
  /\ ui (run [FileChosen (Some smallWebp); LoadEnd (Some secondImage);
              Settled (Fulfilled flagDayLine)]
             (setError (Some (lit "Service unavailable")) showingFirst))
     = mkState (Some secondImage) flagDayLine false None.
Proof.
  assert (H1 : startsWith (lit "image/") (type smallWebp) = true) by reflexivity.
  assert (H2 : (size smallWebp <= MAX_SIZE)%N) by (vm_compute; discriminate).
  refine (conj H1 (conj H2 _)).
  exact (upload_attempt_final_state
           (setError (Some (lit "Service unavailable")) showingFirst)
           smallWebp (Some secondImage) (Fulfilled flagDayLine) H1 H2).
Defined.

(** X12: the handler of the "Identify Flag" button has no guard of its
    own: a click on a button rendered with an image and not loading
    requests an analysis of the image of that render, so two clicks on the
    same render make two requests.  A click on the button as it is rendered
    after the first click, where loading is set, changes nothing. *)
Theorem identify_click_guard_is_the_render :
  (forall w rendered c d,
      image rendered = Some (c :: d) -> loading rendered = false ->
      requests (run [IdentifyClick rendered; IdentifyClick rendered] w)
      = requests w ++ [image rendered; image rendered])
  /\ (forall w,
         step (step w (IdentifyClick (ui w)))
              (IdentifyClick (ui (step w (IdentifyClick (ui w)))))
         = step w (IdentifyClick (ui w))).
Proof.
  split.
  - intros w rendered c d Hi Hl. unfold run. cbn [fold_left step].
    rewrite Hi, Hl. cbn. rewrite <- app_assoc. reflexivity.
  - intros w. destruct w as [[im an lo er] rd rq]. cbn.
    destruct im as [[|c d]|]; cbn; auto.
    destruct lo; cbn; reflexivity.
Qed.

Lemma identify_click_guard_is_the_render_witness :
  image (ui showingFirst) = Some (lit "data:image/png;base64,AAAA")
  /\ loading (ui showingFirst) = false
  /\ requests (run [IdentifyClick (ui showingFirst); IdentifyClick (ui showingFirst)]
                   showingFirst)
     = requests showingFirst ++ [image (ui showingFirst); image (ui showingFirst)].
Proof.
  assert (H1 : image (ui showingFirst) = Some (lit "data:image/png;base64,AAAA"))
    by reflexivity.
  assert (H2 : loading (ui showingFirst) = false) by reflexivity.
  refine (conj H1 (conj H2 _)).
  exact (proj1 identify_click_guard_is_the_render showingFirst (ui showingFirst)
           _ _ H1 H2).
Defined.

Lemma step_latestRequestShown (w : World) (e : Event) :
  match e with
  | IdentifyClick rendered => image rendered = image (ui w)
  | DefaultLoadEnd _ => requests w = []
  | _ => True
  end ->
  latestRequestShown w -> latestRequestShown (step w e).
Proof.
  unfold latestRequestShown. destruct w as [[im an lo er] rd rq].
  destruct e as [file|r| |rendered|o| |o|r|]; cbn; intros Hc.
  - unfold handleImageUpload. destruct file as [f|]; auto.
    destruct (negb (startsWith (lit "image/") (type f))); auto.
    destruct (MAX_SIZE <? size f)%N; auto.
  - intros _. rewrite rev_unit. reflexivity.
  - auto.
  - destruct (image rendered) as [[|c d]|]; auto.
    destruct (loading rendered); auto.
    intros _. cbn. rewrite rev_unit. symmetry. exact Hc.
  - destruct o; auto.
  - auto.
  - destruct o; auto.
  - subst rq. intros _. exact I.
  - auto.
Qed.

(** X13: as long as every click on "Identify Flag" is made on a render that
    shows the current image and the default content is not loaded after an
    analysis was requested, the image on the page is the one the latest
    analysis request was made for.  When the default image finishes
    loading after an upload was read, the page shows the default image
    although the latest request was for the uploaded one. *)
Theorem latest_request_is_for_shown_image :
  (forall es w,
      inStep w es -> latestRequestShown w -> latestRequestShown (run es w))
  /\ ~ latestRequestShown (run uploadBeforeDefault initial).
Proof.
  split.
  - unfold run. induction es as [|e es IH]; intros w Hs H; [exact H|].
    destruct Hs as [He Hes]. cbn [fold_left].
    apply IH; [exact Hes|]. apply step_latestRequestShown; assumption.
  - vm_compute. discriminate.
Qed.

Lemma latest_request_is_for_shown_image_witness :
  inStep showingFirst
    [IdentifyClick (ui showingFirst); FileChosen (Some smallWebp);
     LoadEnd (Some secondImage); Settled RejectedOther;
     IdentifyClick (mkState (Some secondImage) [] false None)]
  /\ latestRequestShown showingFirst
  /\ latestRequestShown
       (run [IdentifyClick (ui showingFirst); FileChosen (Some smallWebp);
             LoadEnd (Some secondImage); Settled RejectedOther;
             IdentifyClick (mkState (Some secondImage) [] false None)]
            showingFirst).
Proof.
  assert (S : inStep showingFirst
                [IdentifyClick (ui showingFirst); FileChosen (Some smallWebp);
                 LoadEnd (Some secondImage); Settled RejectedOther;
                 IdentifyClick (mkState (Some secondImage) [] false None)]).
  { cbn. repeat split. }
  assert (H : latestRequestShown showingFirst) by exact I.
  refine (conj S (conj H _)).
  exact (proj1 latest_request_is_for_shown_image _ showingFirst S H).
Defined.

(** X14: [onloadend] takes whatever the reader holds, [null] included,
    makes it the image, clears the error and requests its analysis; a
    message set by [onerror] just before is therefore lost. *)
Theorem loadend_overrides_read_error (w : World) (result : option jsstring) :
  run [ReadError; LoadEnd result] w = run [LoadEnd result] w
  /\ ui (run [LoadEnd result] w) = mkState result (analysis (ui w)) true None
  /\ requests (run [LoadEnd result] w) = requests w ++ [result].
Proof.
  destruct w as [[im an lo er] rd rq]. repeat split.
Qed.

(* ================================================================== *)
(** ** The default content and the rendered page *)

Lemma mount_step_requests (w : World) (e : Event) :
  isMountEvent e = true -> requests (step w e) = requests w.
Proof.
  destruct e as [file|r| |rendered|o| |o|r|]; try discriminate; intros _;
    try reflexivity.
  destruct o; reflexivity.
Qed.

(** X15: loading the default content never calls the analysis service,
    whatever the fetch and the reader do.  When the image is fetched and
    read, the page shows it with [DEFAULT_ANALYSIS], not loading and
    without error; when the response is not ok or the fetch is rejected,
    the page has no image and no analysis and shows "Failed to load default
    image"; when the read fails, the [loadend] that follows the error still
    sets [DEFAULT_ANALYSIS], which is then shown with that error and
    without an image. *)
Theorem default_content_makes_no_request :
  (forall es w,
      forallb isMountEvent es = true -> requests (run es w) = requests w)
  /\ (forall data,
         run ([Mounted; FetchSettled ResponseOk] ++ defaultReaderEvents (ReadOk data))
             initial
         = mkWorld (mkState (Some data) DEFAULT_ANALYSIS false None) [] [])
  /\ ui (run [Mounted; FetchSettled ResponseNotOk] initial)
     = mkState None [] false (Some (lit "Failed to load default image"))
  /\ ui (run [Mounted; FetchSettled FetchRejected] initial)
     = mkState None [] false (Some (lit "Failed to load default image"))
  /\ ui (run ([Mounted; FetchSettled ResponseOk] ++ defaultReaderEvents ReadFailed)
             initial)
     = mkState None DEFAULT_ANALYSIS false (Some (lit "Failed to load default image")).
Proof.
  split; [|repeat split].
  intros es. unfold run. induction es as [|e es IH]; intros w H; [reflexivity|].
  cbn [forallb] in H. apply andb_true_iff in H. destruct H as [He Hes].
  cbn [fold_left]. rewrite (IH (step w e) Hes). apply mount_step_requests, He.
Qed.

Lemma default_content_makes_no_request_witness :
  forallb isMountEvent
    ([Mounted; FetchSettled ResponseOk] ++ defaultReaderEvents ReadFailed) = true
  /\ requests (run ([Mounted; FetchSettled ResponseOk] ++ defaultReaderEvents ReadFailed)
                   showingFirst)
     = requests showingFirst.
Proof.
  assert (H : forallb isMountEvent
                ([Mounted; FetchSettled ResponseOk] ++ defaultReaderEvents ReadFailed)
              = true) by reflexivity.
  refine (conj H _).
  exact (proj1 default_content_makes_no_request _ showingFirst H).
Defined.

Lemma render_total (s : State) : exists v, render s = Ok v.
Proof.
  unfold render. destruct (analysis s) as [|c a]; eauto.
  destruct (formatAnalysis_spec (c :: a)) as (els & -> & _). cbn [bind]. eauto.
Qed.

(** X16: rendering never raises.  After a failed analysis the results of
    the previous analysis are still rendered and the spinner is not; the
    error box shows the message of the error, and no error box at all when
    that message is the empty string. *)
Theorem failed_analysis_rendering (w : World) (message : jsstring) :
  exists before after,
    render (ui w) = Ok before
    /\ render (ui (handleAnalyzeSettled (RejectedError message) w)) = Ok after
    /\ errorBox after = match message with [] => None | _ :: _ => Some message end
    /\ results after = results before
    /\ spinner after = false.
Proof.
  destruct (render_total (ui w)) as [before Hb].
  destruct (render_total (ui (handleAnalyzeSettled (RejectedError message) w)))
    as [after Ha].
  exists before, after. split; [exact Hb|]. split; [exact Ha|].
  destruct w as [[im an lo er] rd rq]. cbn in Hb, Ha. unfold render in Hb, Ha.
  cbn in Hb, Ha. destruct an as [|c a].
  - injection Hb as <-. injection Ha as <-. cbn.
    destruct message; repeat split.
  - destruct (formatAnalysis (c :: a)) as [els|e]; [|discriminate].
    cbn in Hb, Ha. injection Hb as <-. injection Ha as <-. cbn.
    destruct message; repeat split.
Qed.
